(** * ProveKit recursive verifier: the data model of package [circuit]

    Source: [recursive-verifier/app/circuit/types.go].  The file declares the
    types shared by the in-circuit WHIR verifier: digests, field elements,
    compressed Merkle multi-paths, the WHIR configuration and parameters, the
    JSON configuration, and the prover's hints.

    The development has three layers:
    - [Go], [frontend], [uints]: the native and gnark types the declarations use;
    - [gotype]: the declarations themselves (field names, field types, struct
      tags), with their denotation [denote] as Rocq types;
    - one module per struct of [types.go], holding the struct as a record [t],
      its declaration [decl], and [repr], which reads a record as a value of
      the declaration's denotation.

    A last part states the checks that the specification places before
    circuit construction; their code is outside [types.go]. *)

From Stdlib Require Import ZArith Lia Ascii String.
From stdpp Require Import base tactics decidable option list strings.

(** ** Native Go types *)

Module Go.

(** [lo <= z < hi], as a boolean. *)
Definition in_range (lo hi z : Z) : bool := ((lo <=? z) && (z <? hi))%Z.

(** A fixed-width integer: its value and the proof that it fits. *)
Record bounded (lo hi : Z) : Type :=
  Bounded { val : Z; val_ok : Is_true (in_range lo hi val) }.
Arguments Bounded {lo hi} val val_ok.
Arguments val {lo hi} b.
Arguments val_ok {lo hi} b.

(** [uint8] (and its alias [byte]), [uint64], and [int] (64 bits wide on the
    platforms the verifier is built for). *)
Definition uint8 : Type := bounded 0 (2 ^ 8).
Definition uint64 : Type := bounded 0 (2 ^ 64).
Definition int : Type := bounded (- 2 ^ 63) (2 ^ 63).
Definition byte : Type := uint8.

Definition mk_uint8 (v : Z) (H : Is_true (in_range 0 (2 ^ 8) v)) : uint8 :=
  Bounded v H.
Definition mk_uint64 (v : Z) (H : Is_true (in_range 0 (2 ^ 64) v)) : uint64 :=
  Bounded v H.
Definition mk_int (v : Z) (H : Is_true (in_range (- 2 ^ 63) (2 ^ 63) v)) : int :=
  Bounded v H.

(** A Go array [[n]T]: exactly [n] elements, in index order. *)
Record array (n : nat) (T : Type) : Type :=
  Array { elems : list T; elems_len : length elems = n }.
Arguments Array {n T} elems elems_len.
Arguments elems {n T} a.
Arguments elems_len {n T} a.

End Go.

(** ** gnark types used by the declarations *)

Module frontend.

(** Modelled from the spec: gnark's [frontend.Variable] is imported by
    [types.go] and declared outside this repository.  It is the type of an
    in-circuit variable: a value fixed when the circuit is defined, or a wire
    whose value comes from the witness. *)
Inductive Var : Type :=
| Constant (v : Z)
| Wire (id : nat).

End frontend.

Module uints.

(** Modelled from the spec: gnark's [uints.U8] and [uints.U64] are imported by
    [types.go] and declared outside this repository.  A [U8] is one circuit
    variable constrained to a byte; a [U64] is eight of them. *)
Record U8 : Type := MkU8 { Val : frontend.Var }.
Definition U64 : Type := Go.array 8 U8.

End uints.

(** ** Declarations: the types of [types.go] as data *)

(** Type expressions occurring in [types.go].  A struct carries its name and
    its fields in declaration order; a field carries its name, its type and
    the key of its [json:"..."] tag when it has one. *)
Inductive gotype : Type :=
| TInt
| TUint8
| TUint64
| TString
| TVariable                (* frontend.Variable *)
| TU8                      (* uints.U8 *)
| TU64                     (* uints.U64 *)
| TArray (n : nat) (elem : gotype)
| TSlice (elem : gotype)
| TStruct (name : string) (fs : fields)
with fields : Type :=
| FNil
| FCons (fname : string) (ftype : gotype) (tag : option string) (rest : fields).

Scheme gotype_fields_ind := Induction for gotype Sort Prop
  with fields_gotype_ind := Induction for fields Sort Prop.
Combined Scheme gotype_mutind from gotype_fields_ind, fields_gotype_ind.

(** One field of a struct declaration. *)
Record field : Type := Field { f_name : string; f_type : gotype; f_tag : option string }.

(** A field without a tag, and a field tagged [json:"key"]. *)
Definition fld (name : string) (ty : gotype) : field := Field name ty None.
Definition fldj (name : string) (ty : gotype) (key : string) : field :=
  Field name ty (Some key).

Fixpoint fields_of_list (l : list field) : fields :=
  match l with
  | [] => FNil
  | f :: r => FCons (f_name f) (f_type f) (f_tag f) (fields_of_list r)
  end.

Fixpoint list_of_fields (fs : fields) : list field :=
  match fs with
  | FNil => []
  | FCons n t tag r => Field n t tag :: list_of_fields r
  end.

(** [struct name l]: the declaration [type name struct { l }]. *)
Definition struct (name : string) (l : list field) : gotype :=
  TStruct name (fields_of_list l).

(** The fields of a declared struct (none for a type that is no struct). *)
Definition struct_fields (t : gotype) : list field :=
  match t with
  | TStruct _ fs => list_of_fields fs
  | _ => []
  end.

(** The values of a type expression, and of a field list (a right-nested
    tuple closed by [unit], one component per field, in declaration order). *)
Fixpoint denote (t : gotype) : Type :=
  match t with
  | TInt => Go.int
  | TUint8 => Go.uint8
  | TUint64 => Go.uint64
  | TString => string
  | TVariable => frontend.Var
  | TU8 => uints.U8
  | TU64 => uints.U64
  | TArray n e => Go.array n (denote e)
  | TSlice e => list (denote e)
  | TStruct _ fs => denote_fields fs
  end
with denote_fields (fs : fields) : Type :=
  match fs with
  | FNil => unit
  | FCons _ t _ r => (denote t * denote_fields r)%type
  end.

(** ** Common types *)

Module KeccakDigest.

(** [type KeccakDigest struct { KeccakDigest [32]uint8 }] *)
Record t : Type := Build { KeccakDigest : Go.array 32 Go.uint8 }.

Definition decl : gotype :=
  struct "KeccakDigest" [ fld "KeccakDigest" (TArray 32 TUint8) ].

Definition repr (d : t) : denote decl := (KeccakDigest d, tt).

End KeccakDigest.

Module Fp256.

(** [type Fp256 struct { Limbs [4]uint64 }] *)
Record t : Type := Build { Limbs : Go.array 4 Go.uint64 }.

Definition decl : gotype :=
  struct "Fp256" [ fld "Limbs" (TArray 4 TUint64) ].

Definition repr (x : t) : denote decl := (Limbs x, tt).

(** The limbs as integers, in index order. *)
Definition limbs (x : t) : list Z := map Go.val (Go.elems (Limbs x)).

End Fp256.

Module MultiPath.

(** [type MultiPath[Digest any] struct { ... }] *)
Record t (Digest : Type) : Type := Build {
  LeafSiblingHashes : list Digest;
  AuthPathsPrefixLengths : list Go.uint64;
  AuthPathsSuffixes : list (list Digest);
  LeafIndexes : list Go.uint64
}.
Arguments Build {Digest}.
Arguments LeafSiblingHashes {Digest}.
Arguments AuthPathsPrefixLengths {Digest}.
Arguments AuthPathsSuffixes {Digest}.
Arguments LeafIndexes {Digest}.

Definition decl (Digest : gotype) : gotype :=
  struct "MultiPath"
    [ fld "LeafSiblingHashes" (TSlice Digest);
      fld "AuthPathsPrefixLengths" (TSlice TUint64);
      fld "AuthPathsSuffixes" (TSlice (TSlice Digest));
      fld "LeafIndexes" (TSlice TUint64) ].

Definition repr {Digest : Type} {D : gotype} (rd : Digest -> denote D)
    (p : t Digest) : denote (decl D) :=
  (map rd (LeafSiblingHashes p),
   (AuthPathsPrefixLengths p,
    (map (map rd) (AuthPathsSuffixes p), (LeafIndexes p, tt)))).

End MultiPath.

(** ** WHIR specific types *)

Module WHIRConfig.

Record t : Type := Build {
  NRounds : Go.int;
  Rate : Go.int;
  NVars : Go.int;
  FoldingFactor : list Go.int;
  OODSamples : list Go.int;
  NumQueries : list Go.int;
  PowBits : list Go.int;
  FinalQueries : Go.int;
  FinalPowBits : Go.int;
  FinalFoldingPowBits : Go.int;
  DomainGenerator : string;
  BatchSize : Go.int
}.

Definition decl : gotype :=
  struct "WHIRConfig"
    [ fldj "NRounds" TInt "n_rounds";
      fldj "Rate" TInt "rate";
      fldj "NVars" TInt "n_vars";
      fldj "FoldingFactor" (TSlice TInt) "folding_factor";
      fldj "OODSamples" (TSlice TInt) "ood_samples";
      fldj "NumQueries" (TSlice TInt) "num_queries";
      fldj "PowBits" (TSlice TInt) "pow_bits";
      fldj "FinalQueries" TInt "final_queries";
      fldj "FinalPowBits" TInt "final_pow_bits";
      fldj "FinalFoldingPowBits" TInt "final_folding_pow_bits";
      fldj "DomainGenerator" TString "domain_generator";
      fldj "BatchSize" TInt "batch_size" ].

Definition repr (c : t) : denote decl :=
  (NRounds c, (Rate c, (NVars c, (FoldingFactor c, (OODSamples c,
   (NumQueries c, (PowBits c, (FinalQueries c, (FinalPowBits c,
   (FinalFoldingPowBits c, (DomainGenerator c, (BatchSize c, tt)))))))))))).

End WHIRConfig.

Module WHIRParams.

Record t : Type := Build {
  ParamNRounds : Go.int;
  FoldingFactorArray : list Go.int;
  RoundParametersOODSamples : list Go.int;
  RoundParametersNumOfQueries : list Go.int;
  PowBits : list Go.int;
  FinalQueries : Go.int;
  FinalPowBits : Go.int;
  FinalFoldingPowBits : Go.int;
  StartingDomainBackingDomainGenerator : frontend.Var;
  DomainSize : Go.int;
  CommittmentOODSamples : Go.int;
  FinalSumcheckRounds : Go.int;
  MVParamsNumberOfVariables : Go.int;
  BatchSize : Go.int
}.

Definition decl : gotype :=
  struct "WHIRParams"
    [ fld "ParamNRounds" TInt;
      fld "FoldingFactorArray" (TSlice TInt);
      fld "RoundParametersOODSamples" (TSlice TInt);
      fld "RoundParametersNumOfQueries" (TSlice TInt);
      fld "PowBits" (TSlice TInt);
      fld "FinalQueries" TInt;
      fld "FinalPowBits" TInt;
      fld "FinalFoldingPowBits" TInt;
      fld "StartingDomainBackingDomainGenerator" TVariable;
      fld "DomainSize" TInt;
      fld "CommittmentOODSamples" TInt;
      fld "FinalSumcheckRounds" TInt;
      fld "MVParamsNumberOfVariables" TInt;
      fld "BatchSize" TInt ].

Definition repr (p : t) : denote decl :=
  (ParamNRounds p, (FoldingFactorArray p, (RoundParametersOODSamples p,
   (RoundParametersNumOfQueries p, (PowBits p, (FinalQueries p,
   (FinalPowBits p, (FinalFoldingPowBits p,
   (StartingDomainBackingDomainGenerator p, (DomainSize p,
   (CommittmentOODSamples p, (FinalSumcheckRounds p,
   (MVParamsNumberOfVariables p, (BatchSize p, tt)))))))))))))).

End WHIRParams.

Module MainRoundData.

Record t : Type := Build {
  OODPoints : list (list frontend.Var);
  StirChallengesPoints : list (list frontend.Var);
  CombinationRandomness : list (list frontend.Var)
}.

Definition decl : gotype :=
  struct "MainRoundData"
    [ fld "OODPoints" (TSlice (TSlice TVariable));
      fld "StirChallengesPoints" (TSlice (TSlice TVariable));
      fld "CombinationRandomness" (TSlice (TSlice TVariable)) ].

Definition repr (d : t) : denote decl :=
  (OODPoints d, (StirChallengesPoints d, (CombinationRandomness d, tt))).

End MainRoundData.

Module InitialSumcheckData.

Record t : Type := Build {
  InitialOODQueries : list frontend.Var;
  InitialCombinationRandomness : list frontend.Var
}.

Definition decl : gotype :=
  struct "InitialSumcheckData"
    [ fld "InitialOODQueries" (TSlice TVariable);
      fld "InitialCombinationRandomness" (TSlice TVariable) ].

Definition repr (d : t) : denote decl :=
  (InitialOODQueries d, (InitialCombinationRandomness d, tt)).

End InitialSumcheckData.

(** ** Merkle specific types *)

Module MerklePaths.

Record t : Type := Build {
  Leaves : list (list (list frontend.Var));
  LeafIndexes : list (list uints.U64);
  LeafSiblingHashes : list (list (list uints.U8));
  AuthPaths : list (list (list (list uints.U8)))
}.

Definition decl : gotype :=
  struct "MerklePaths"
    [ fld "Leaves" (TSlice (TSlice (TSlice TVariable)));
      fld "LeafIndexes" (TSlice (TSlice TU64));
      fld "LeafSiblingHashes" (TSlice (TSlice (TSlice TU8)));
      fld "AuthPaths" (TSlice (TSlice (TSlice (TSlice TU8)))) ].

Definition repr (m : t) : denote decl :=
  (Leaves m, (LeafIndexes m, (LeafSiblingHashes m, (AuthPaths m, tt)))).

End MerklePaths.

Module Merkle.

Record t : Type := Build {
  Leaves : list (list (list frontend.Var));
  LeafIndexes : list (list uints.U64);
  LeafSiblingHashes : list (list frontend.Var);
  AuthPaths : list (list (list frontend.Var))
}.

Definition decl : gotype :=
  struct "Merkle"
    [ fld "Leaves" (TSlice (TSlice (TSlice TVariable)));
      fld "LeafIndexes" (TSlice (TSlice TU64));
      fld "LeafSiblingHashes" (TSlice (TSlice TVariable));
      fld "AuthPaths" (TSlice (TSlice (TSlice TVariable))) ].

Definition repr (m : t) : denote decl :=
  (Leaves m, (LeafIndexes m, (LeafSiblingHashes m, (AuthPaths m, tt)))).

End Merkle.

(** ** Other types *)

Module ProofObject.

Record t : Type := Build {
  StatementValuesAtRandomPoint : list Fp256.t
}.

Definition decl : gotype :=
  struct "ProofObject"
    [ fldj "StatementValuesAtRandomPoint" (TSlice Fp256.decl)
        "statement_values_at_random_point" ].

Definition repr (p : t) : denote decl :=
  (map Fp256.repr (StatementValuesAtRandomPoint p), tt).

End ProofObject.

Module Config.

Record t : Type := Build {
  WHIRConfigWitness : WHIRConfig.t;
  WHIRConfigHidingSpartan : WHIRConfig.t;
  LogNumConstraints : Go.int;
  LogNumVariables : Go.int;
  LogANumTerms : Go.int;
  IOPattern : string;
  Transcript : list Go.byte;
  TranscriptLen : Go.int;
  WitnessStatementEvaluations : list string;
  BlindingStatementEvaluations : list string
}.

Definition decl : gotype :=
  struct "Config"
    [ fldj "WHIRConfigWitness" WHIRConfig.decl "whir_config_witness";
      fldj "WHIRConfigHidingSpartan" WHIRConfig.decl "whir_config_hiding_spartan";
      fldj "LogNumConstraints" TInt "log_num_constraints";
      fldj "LogNumVariables" TInt "log_num_variables";
      fldj "LogANumTerms" TInt "log_a_num_terms";
      fldj "IOPattern" TString "io_pattern";
      fldj "Transcript" (TSlice TUint8) "transcript";
      fldj "TranscriptLen" TInt "transcript_len";
      fldj "WitnessStatementEvaluations" (TSlice TString)
        "witness_statement_evaluations";
      fldj "BlindingStatementEvaluations" (TSlice TString)
        "blinding_statement_evaluations" ].

Definition repr (c : t) : denote decl :=
  (WHIRConfig.repr (WHIRConfigWitness c),
   (WHIRConfig.repr (WHIRConfigHidingSpartan c),
    (LogNumConstraints c, (LogNumVariables c, (LogANumTerms c,
     (IOPattern c, (Transcript c, (TranscriptLen c,
      (WitnessStatementEvaluations c,
       (BlindingStatementEvaluations c, tt)))))))))).

End Config.

(** The four hint structs are declared in [types.go] in the order [Hints],
    [Hint], [FirstRoundHint], [ZKHint]; here each follows the ones it uses. *)

Module Hint.

Record t : Type := Build {
  merklePaths : list (MultiPath.t KeccakDigest.t);
  stirAnswers : list (list (list Fp256.t))
}.

Definition decl : gotype :=
  struct "Hint"
    [ fld "merklePaths" (TSlice (MultiPath.decl KeccakDigest.decl));
      fld "stirAnswers" (TSlice (TSlice (TSlice Fp256.decl))) ].

Definition repr (h : t) : denote decl :=
  (map (MultiPath.repr KeccakDigest.repr) (merklePaths h),
   (map (map (map Fp256.repr)) (stirAnswers h), tt)).

End Hint.

Module FirstRoundHint.

Record t : Type := Build {
  path : Hint.t;
  expectedStirAnswers : list (list Fp256.t)
}.

Definition decl : gotype :=
  struct "FirstRoundHint"
    [ fld "path" Hint.decl;
      fld "expectedStirAnswers" (TSlice (TSlice Fp256.decl)) ].

Definition repr (h : t) : denote decl :=
  (Hint.repr (path h), (map (map Fp256.repr) (expectedStirAnswers h), tt)).

End FirstRoundHint.

Module ZKHint.

Record t : Type := Build {
  firstRoundMerklePaths : FirstRoundHint.t;
  roundHints : Hint.t
}.

Definition decl : gotype :=
  struct "ZKHint"
    [ fld "firstRoundMerklePaths" FirstRoundHint.decl;
      fld "roundHints" Hint.decl ].

Definition repr (h : t) : denote decl :=
  (FirstRoundHint.repr (firstRoundMerklePaths h), (Hint.repr (roundHints h), tt)).

End ZKHint.

Module Hints.

Record t : Type := Build {
  witnessHints : ZKHint.t;
  spartanHidingHint : ZKHint.t
}.

Definition decl : gotype :=
  struct "Hints"
    [ fld "witnessHints" ZKHint.decl;
      fld "spartanHidingHint" ZKHint.decl ].

Definition repr (h : t) : denote decl :=
  (ZKHint.repr (witnessHints h), (ZKHint.repr (spartanHidingHint h), tt)).

End Hints.

Module ClaimedEvaluations.

Record t : Type := Build {
  FSums : list Fp256.t;
  GSums : list Fp256.t
}.

Definition decl : gotype :=
  struct "ClaimedEvaluations"
    [ fld "FSums" (TSlice Fp256.decl);
      fld "GSums" (TSlice Fp256.decl) ].

Definition repr (c : t) : denote decl :=
  (map Fp256.repr (FSums c), (map Fp256.repr (GSums c), tt)).

End ClaimedEvaluations.

(** ** Reading the declarations *)

(** Go exports an identifier when it starts with an upper-case letter (all
    identifiers of [types.go] are ASCII). *)
Definition is_upper (c : ascii) : bool :=
  (65 <=? nat_of_ascii c)%nat && (nat_of_ascii c <=? 90)%nat.

Definition exported (name : string) : bool :=
  match name with
  | String c _ => is_upper c
  | EmptyString => false
  end.

(** The type of the field called [name], when the struct has one. *)
Definition field_type (t : gotype) (name : string) : option gotype :=
  f_type <$> find (fun f => String.eqb (f_name f) name) (struct_fields t).

(** The types that are circuit variables. *)
Definition circuit_variable (t : gotype) : bool :=
  match t with
  | TVariable | TU8 | TU64 => true
  | _ => false
  end.

(** The type of the entries of an array or a slice. *)
Definition entry_type (t : gotype) : option gotype :=
  match t with
  | TArray _ e | TSlice e => Some e
  | _ => None
  end.

(** [plain t]: no circuit variable occurs anywhere in [t]. *)
Fixpoint plain (t : gotype) : bool :=
  match t with
  | TInt | TUint8 | TUint64 | TString => true
  | TVariable | TU8 | TU64 => false
  | TArray _ e => plain e
  | TSlice e => plain e
  | TStruct _ fs => plain_fields fs
  end
with plain_fields (fs : fields) : bool :=
  match fs with
  | FNil => true
  | FCons _ t _ r => plain t && plain_fields r
  end.

(** The names of the structs occurring in [t], [t] itself included. *)
Fixpoint struct_names (t : gotype) : list string :=
  match t with
  | TInt | TUint8 | TUint64 | TString | TVariable | TU8 | TU64 => []
  | TArray _ e => struct_names e
  | TSlice e => struct_names e
  | TStruct n fs => n :: struct_names_fields fs
  end
with struct_names_fields (fs : fields) : list string :=
  match fs with
  | FNil => []
  | FCons _ t _ r => struct_names t ++ struct_names_fields r
  end.

Definition mentions (name : string) (t : gotype) : bool :=
  existsb (String.eqb name) (struct_names t).

(** The field list of a struct declaration. *)
Definition decl_fields (t : gotype) : fields :=
  match t with
  | TStruct _ fs => fs
  | _ => FNil
  end.

(** The name of a struct declaration (empty for a type that is no struct). *)
Definition decl_name (t : gotype) : string :=
  match t with
  | TStruct n _ => n
  | _ => EmptyString
  end.

(** An inline [[4]uint64] occurs somewhere in [t]. *)
Fixpoint has_limbs (t : gotype) : bool :=
  match t with
  | TInt | TUint8 | TUint64 | TString | TVariable | TU8 | TU64 => false
  | TArray n e =>
      ((n =? 4)%nat && match e with TUint64 => true | _ => false end)
      || has_limbs e
  | TSlice e => has_limbs e
  | TStruct _ fs => has_limbs_fields fs
  end
with has_limbs_fields (fs : fields) : bool :=
  match fs with
  | FNil => false
  | FCons _ t _ r => has_limbs t || has_limbs_fields r
  end.

(** The integer types a loop bound can have: [int] and [[]int]. *)
Definition is_int_type (t : gotype) : bool :=
  match t with
  | TInt | TSlice TInt => true
  | _ => false
  end.

(** The fields of a struct whose type holds a circuit variable. *)
Definition circuit_fields (t : gotype) : list field :=
  filter (fun f => plain (f_type f) = false) (struct_fields t).

(** The circuit variables a value holds, in field and index order. *)
Fixpoint vars_of (t : gotype) : denote t -> list frontend.Var :=
  match t return denote t -> list frontend.Var with
  | TInt => fun _ => []
  | TUint8 => fun _ => []
  | TUint64 => fun _ => []
  | TString => fun _ => []
  | TVariable => fun v => [v]
  | TU8 => fun u => [uints.Val u]
  | TU64 => fun a => map uints.Val (Go.elems a)
  | TArray _ e => fun a => concat (map (vars_of e) (Go.elems a))
  | TSlice e => fun l => concat (map (vars_of e) l)
  | TStruct _ fs => vars_of_fields fs
  end
with vars_of_fields (fs : fields) : denote_fields fs -> list frontend.Var :=
  match fs return denote_fields fs -> list frontend.Var with
  | FNil => fun _ => []
  | FCons _ t _ r => fun v => vars_of t (fst v) ++ vars_of_fields r (snd v)
  end.

(** ** Struct fields as [encoding/json] sees them *)

(** The key under which [encoding/json] reads and writes a field: none for an
    unexported field or a field tagged ["-"], the tag's key when the field has
    one, the field's name otherwise. *)
Definition json_key (f : field) : option string :=
  if exported (f_name f) then
    match f_tag f with
    | Some "-" => None
    | Some key => Some key
    | None => Some (f_name f)
    end
  else None.

(** The fields of a struct that JSON can reach, with their keys. *)
Definition json_fields (t : gotype) : list (string * gotype) :=
  omap (fun f => (fun k => (k, f_type f)) <$> json_key f) (struct_fields t).

(** Every field is exported and carries a tag. *)
Definition all_exported_tagged (t : gotype) : bool :=
  forallb (fun f => exported (f_name f) && bool_decide (is_Some (f_tag f)))
          (struct_fields t).

(** No field is exported. *)
Definition all_unexported (t : gotype) : bool :=
  forallb (fun f => negb (exported (f_name f))) (struct_fields t).

(** JSON values. *)
#[local] Unset Elimination Schemes.
Inductive json : Type :=
| JNull
| JBool (b : bool)
| JNumber (z : Z)
| JString (s : string)
| JArray (l : list json)
| JObject (members : list (string * json)).
#[local] Set Elimination Schemes.

Definition to_lower (c : ascii) : ascii :=
  if is_upper c then ascii_of_nat (nat_of_ascii c + 32) else c.

(** A key folded as [encoding/json] folds it (Unicode simple case folding).
    Strings are byte sequences in UTF-8.  ASCII upper-case letters go to
    lower case, and so do the only two other characters that fold to an ASCII
    letter: U+017F (long s, bytes 197 191) goes to [s], and U+212A (Kelvin
    sign, bytes 226 132 170) goes to [k].  Every other byte stays. *)
Fixpoint lower (s : string) : string :=
  match s with
  | EmptyString => EmptyString
  | String c r =>
      match r with
      | String d r' =>
          if (nat_of_ascii c =? 197)%nat && (nat_of_ascii d =? 191)%nat
          then String "s" (lower r')
          else
            match r' with
            | String e r'' =>
                if (nat_of_ascii c =? 226)%nat && (nat_of_ascii d =? 132)%nat
                   && (nat_of_ascii e =? 170)%nat
                then String "k" (lower r'')
                else String (to_lower c) (lower r)
            | EmptyString => String (to_lower c) (lower r)
            end
      | EmptyString => String (to_lower c) EmptyString
      end
  end.

(** Equality of keys up to case: two keys match when they fold to the same
    key.  Against the keys of [types.go], which are ASCII, this is the match
    [encoding/json] makes. *)
Definition equal_fold (a b : string) : bool := String.eqb (lower a) (lower b).

Section Unmarshal.

(** How a JSON value is decoded into an existing value of a field's type.
    [None] stands for a decoding error: which error [encoding/json] returns,
    and what it has stored when it returns one, are left out. *)
Variable unmarshal_value : forall t : gotype, json -> denote t -> option (denote t).

(** Decode [j] into the first JSON-reachable field whose key matches [k]
    under [eqk]; a key that matches no field is skipped. *)
Fixpoint store_member (eqk : string -> string -> bool) (fs : fields)
    (k : string) (j : json) : denote_fields fs -> option (denote_fields fs) :=
  match fs return denote_fields fs -> option (denote_fields fs) with
  | FNil => fun v => Some v
  | FCons n t tag r => fun v =>
      match json_key (Field n t tag) with
      | Some key =>
          if eqk key k
          then x ← unmarshal_value t j (fst v); Some (x, snd v)
          else y ← store_member eqk r k j (snd v); Some (fst v, y)
      | None => y ← store_member eqk r k j (snd v); Some (fst v, y)
      end
  end.

Definition has_member (eqk : string -> string -> bool) (fs : fields)
    (k : string) : bool :=
  existsb (fun f => match json_key f with Some key => eqk key k | None => false end)
          (list_of_fields fs).

(** One member of a JSON object: an exact match of the key is preferred, a
    match up to case is accepted. *)
Definition unmarshal_member (fs : fields) (m : string * json)
    (v : denote_fields fs) : option (denote_fields fs) :=
  if has_member String.eqb fs m.1
  then store_member String.eqb fs m.1 m.2 v
  else store_member equal_fold fs m.1 m.2 v.

(** The members of a JSON object, in the order they are read.  The result is
    a value when every member decodes, and [None] when some member fails. *)
Fixpoint unmarshal_members (fs : fields) (ms : list (string * json))
    (v : denote_fields fs) : option (denote_fields fs) :=
  match ms with
  | [] => Some v
  | m :: rest => v' ← unmarshal_member fs m v; unmarshal_members fs rest v'
  end.

(** [json.Unmarshal] into a struct: an object is decoded member by member,
    [null] leaves the value as it is, anything else is an error. *)
Definition unmarshal_struct (fs : fields) (j : json) (v : denote_fields fs)
    : option (denote_fields fs) :=
  match j with
  | JObject ms => unmarshal_members fs ms v
  | JNull => Some v
  | _ => None
  end.

End Unmarshal.

(** ** Checks the specification places before circuit construction

    [types.go] declares the data only; the functions that validate it live in
    other files of the package.  The definitions of this part are written
    from the specification's wording of those checks, over the types above. *)

(** Modelled from the spec: the error classes of section 7.  The loader and
    assembler that raise them are not part of [types.go]. *)
Inductive error : Type :=
| ConfigurationError
| MalformedTranscript.

(** Modelled from the spec: the outcome of assembling a circuit (sections 6
    and 7): either assembly is abandoned with an error and no circuit exists,
    or a circuit is produced, which the witness satisfies or not.  The
    assembler itself is not part of [types.go]. *)
Inductive assembly : Type :=
| Failed (e : error)
| Circuit (satisfiable : bool).

Section MultiPathShape.

Context {Digest : Type}.

(** Modelled from the spec: the invariant of an authentication path
    (section 3): for every leaf [i], prefix-length(i) + length(suffix(i)) is
    the path depth, and there are as many leaf indexes as suffix sequences.
    The verifier that states it is not part of [types.go]. *)
Definition multipath_invariant (depth : nat) (p : MultiPath.t Digest) : Prop :=
  length (MultiPath.LeafIndexes p) = length (MultiPath.AuthPathsSuffixes p) /\
  forall i : nat, i < length (MultiPath.LeafIndexes p) ->
    exists (n : Go.uint64) (suffix : list Digest),
      MultiPath.AuthPathsPrefixLengths p !! i = Some n /\
      MultiPath.AuthPathsSuffixes p !! i = Some suffix /\
      (Go.val n + Z.of_nat (length suffix))%Z = Z.of_nat depth.

(** Modelled from the spec: the explicit check of section 4.2 for leaf [i];
    a leaf without a prefix length or without a suffix fails it. *)
Definition check_leaf (depth : nat) (p : MultiPath.t Digest) (i : nat) : bool :=
  match MultiPath.AuthPathsPrefixLengths p !! i, MultiPath.AuthPathsSuffixes p !! i with
  | Some n, Some suffix => (Go.val n + Z.of_nat (length suffix) =? Z.of_nat depth)%Z
  | _, _ => false
  end.

(** Modelled from the spec: the explicit check of section 4.2 over all the
    leaves of a path. *)
Definition check_multipath (depth : nat) (p : MultiPath.t Digest) : bool :=
  (length (MultiPath.LeafIndexes p) =? length (MultiPath.AuthPathsSuffixes p))%nat
  && forallb (check_leaf depth p) (seq 0 (length (MultiPath.LeafIndexes p))).

(** Modelled from the spec: the shape step of [MerklePathVerifier.verify]
    (sections 4.2 and 7): a path that fails the check aborts assembly with a
    configuration error; otherwise the root constraint is emitted, satisfied
    exactly when the recomputed root is the committed one. *)
Definition verify_shape (depth : nat) (p : MultiPath.t Digest)
    (root_matches : bool) : assembly :=
  if check_multipath depth p then Circuit root_matches
  else Failed ConfigurationError.

(** Modelled from the spec: the range check on leaf indexes (sections 7 and
    8): an index at or beyond the round's domain size is a configuration
    error raised while the circuit is built. *)
Definition leaf_in_domain (domain_size : Go.int) (i : Go.uint64) : bool :=
  (Go.val i <? Go.val domain_size)%Z.

(** Modelled from the spec: assembling the Merkle check of one round. *)
Definition assemble_round (domain_size : Go.int) (p : MultiPath.t Digest)
    (root_matches : bool) : assembly :=
  if forallb (leaf_in_domain domain_size) (MultiPath.LeafIndexes p)
  then Circuit root_matches
  else Failed ConfigurationError.

(** Modelled from the spec: assembling the Merkle checks of a batch, one
    path per round, each against its round's domain size; the circuit is
    satisfiable when every round's root matches.  Assembly stops at the first
    round that fails. *)
Fixpoint assemble_batch (rounds : list (Go.int * MultiPath.t Digest * bool))
    : assembly :=
  match rounds with
  | [] => Circuit true
  | (domain_size, p, root_matches) :: rest =>
      match assemble_round domain_size p root_matches with
      | Failed e => Failed e
      | Circuit ok =>
          match assemble_batch rest with
          | Failed e => Failed e
          | Circuit ok' => Circuit (ok && ok')
          end
      end
  end.

End MultiPathShape.

(** Modelled from the spec: the length condition on a per-round array
    (section 3): as many entries as rounds, or one more for the final round. *)
Definition round_array_ok (n_rounds : Go.int) (a : list Go.int) : bool :=
  (Z.of_nat (length a) =? Go.val n_rounds)%Z
  || (Z.of_nat (length a) =? Go.val n_rounds + 1)%Z.

(** The length invariant of a per-round array, as a proposition: as many
    entries as the round count, or one more. *)
Definition round_array_inv (n_rounds : Go.int) (a : list Go.int) : Prop :=
  Z.of_nat (length a) = Go.val n_rounds \/
  Z.of_nat (length a) = (Go.val n_rounds + 1)%Z.

(** The per-round arrays of a configuration and of the parameters, in
    declaration order: folding factors, OOD samples, query counts,
    proof-of-work bits. *)
Definition config_round_arrays (c : WHIRConfig.t) : list (list Go.int) :=
  [ WHIRConfig.FoldingFactor c; WHIRConfig.OODSamples c;
    WHIRConfig.NumQueries c; WHIRConfig.PowBits c ].

Definition params_round_arrays (p : WHIRParams.t) : list (list Go.int) :=
  [ WHIRParams.FoldingFactorArray p; WHIRParams.RoundParametersOODSamples p;
    WHIRParams.RoundParametersNumOfQueries p; WHIRParams.PowBits p ].

(** Modelled from the spec: the array-length validation of section 7, class
    (a), for a WHIR configuration.  The loader that runs it is not part of
    [types.go]. *)
Definition validate_config (c : WHIRConfig.t) : error + WHIRConfig.t :=
  if forallb (round_array_ok (WHIRConfig.NRounds c)) (config_round_arrays c)
  then inr c else inl ConfigurationError.

Section TranscriptReplay.

(** The number of transcript bytes a pattern reads.  The token grammar of the
    pattern belongs to the native prover's transcript format (section 9). *)
Variable pattern_bytes : string -> nat.

(** Modelled from the spec: the state of [TranscriptReplay] (section 4.1):
    the pattern, the recorded bytes, and the cursor into them. *)
Record replay : Type := Replay {
  replay_pattern : string;
  replay_bytes : list Go.byte;
  replay_cursor : nat
}.

(** Modelled from the spec: [initialize(pattern, bytes, declaredLength)]
    (section 4.1).  [TranscriptReplay] is not part of [types.go]. *)
Definition initialize (pattern : string) (bytes : list Go.byte)
    (declaredLength : Go.int) : error + replay :=
  if negb (Go.val declaredLength =? Z.of_nat (length bytes))%Z
  then inl MalformedTranscript
  else if (length bytes <? pattern_bytes pattern)%nat
  then inl MalformedTranscript
  else inr (Replay pattern bytes 0).

(** Modelled from the spec: [initialize] on the pattern, the transcript and
    the declared length a configuration carries. *)
Definition initialize_config (c : Config.t) : error + replay :=
  initialize (Config.IOPattern c) (Config.Transcript c) (Config.TranscriptLen c).

End TranscriptReplay.

(** ** Concrete values used in examples *)

Definition limb (v : Z) (H : Is_true (Go.in_range 0 (2 ^ 64) v)) : Go.uint64 :=
  Go.mk_uint64 v H.

(** The limbs [1, 0, 0, 0] and [0, 0, 0, 1]. *)
Definition fp_one_le : Fp256.t :=
  Fp256.Build (Go.Array [limb 1 I; limb 0 I; limb 0 I; limb 0 I] eq_refl).

Definition fp_one_be : Fp256.t :=
  Fp256.Build (Go.Array [limb 0 I; limb 0 I; limb 0 I; limb 1 I] eq_refl).

(** The all-zero digest. *)
Definition zero_digest : KeccakDigest.t :=
  KeccakDigest.Build (Go.Array (replicate 32 (Go.mk_uint8 0 I)) eq_refl).

(** The four hint structs of [types.go]. *)
Definition hint_decls : list gotype :=
  [ Hints.decl; ZKHint.decl; Hint.decl; FirstRoundHint.decl ].

(** A configuration whose round count is 2 and whose per-round arrays are all
    empty, and a one-leaf path without suffix or prefix length: both are
    values of their types. *)
Definition int0 : Go.int := Go.mk_int 0 I.
Definition int2 : Go.int := Go.mk_int 2 I.

Definition config_without_arrays : WHIRConfig.t :=
  WHIRConfig.Build int2 int0 int0 [] [] [] [] int0 int0 int0 EmptyString int0.

Definition path_without_suffix : MultiPath.t KeccakDigest.t :=
  MultiPath.Build [] [] [] [ limb 0 I ].

(** Parameters whose round count is 2 and whose per-round arrays are all
    empty. *)
Definition params_without_arrays : WHIRParams.t :=
  WHIRParams.Build int2 [] [] [] [] int0 int0 int0 (frontend.Constant 0)
    int0 int0 int0 int0 int0.

(** The keys [n_round] followed by U+017F (long s), and U+212A (Kelvin sign)
    followed by [eccakDigest], as UTF-8 bytes. *)
Definition key_n_rounds_long_s : string :=
  "n_round" ++ String (ascii_of_nat 197) (String (ascii_of_nat 191) EmptyString).

Definition key_kelvin_eccakDigest : string :=
  String (ascii_of_nat 226) (String (ascii_of_nat 132)
    (String (ascii_of_nat 170) "eccakDigest")).

(** A configuration that declares two transcript bytes and holds none. *)
Definition config_short_transcript : Config.t :=
  Config.Build config_without_arrays config_without_arrays int0 int0 int0
    EmptyString [] int2 [] [].

(** ** Decoding a JSON member into the field it names *)

(** Apply [f] to the [i]-th field of a struct value and leave the others as
    they are; an index past the last field changes nothing. *)
Fixpoint update_at (f : forall t : gotype, denote t -> option (denote t))
    (fs : fields) (i : nat) : denote_fields fs -> option (denote_fields fs) :=
  match fs return denote_fields fs -> option (denote_fields fs) with
  | FNil => fun v => Some v
  | FCons _ t _ r => fun v =>
      match i with
      | 0 => x ← f t (fst v); Some (x, snd v)
      | S i' => y ← update_at f r i' (snd v); Some (fst v, y)
      end
  end.

(** No field of [l] has a JSON key equal to [k] up to case. *)
Definition key_free (k : string) (l : list field) : bool :=
  forallb (fun g => match json_key g with
                    | Some k' => negb (equal_fold k' k)
                    | None => true
                    end) l.

(** The JSON keys of [l] are pairwise different, also up to case. *)
Fixpoint keys_distinct (l : list field) : bool :=
  match l with
  | [] => true
  | f :: r =>
      match json_key f with
      | Some k => key_free k r
      | None => true
      end && keys_distinct r
  end.

(** The structs of [types.go] that JSON reaches: the configuration, the proof
    object, and the payload types of the hints. *)
Definition json_decls : list gotype :=
  [ Config.decl; WHIRConfig.decl; ProofObject.decl;
    Fp256.decl; KeccakDigest.decl; MultiPath.decl KeccakDigest.decl ].

(** ** Counting entries *)

(** The number of entries of a slice of slices, and deeper. *)
Definition entries2 {A : Type} (l : list (list A)) : nat :=
  sum_list_with length l.
Definition entries3 {A : Type} (l : list (list (list A))) : nat :=
  sum_list_with entries2 l.
Definition entries4 {A : Type} (l : list (list (list (list A)))) : nat :=
  sum_list_with entries3 l.

(** ** Facts about the native types *)

Lemma bounded_range (lo hi : Z) (b : Go.bounded lo hi) :
  (lo <= Go.val b < hi)%Z.
Proof.
  destruct b as [v Hv]; simpl.
  unfold Go.in_range in Hv.
  apply andb_prop_elim in Hv as [Hlo Hhi].
  apply Is_true_true in Hlo, Hhi. lia.
Qed.

Lemma bounded_eq (lo hi : Z) (a b : Go.bounded lo hi) :
  Go.val a = Go.val b -> a = b.
Proof.
  destruct a as [a Ha], b as [b Hb]; simpl; intros ->.
  f_equal. apply proof_irrel.
Qed.

Lemma array_eq (n : nat) (T : Type) (a b : Go.array n T) :
  Go.elems a = Go.elems b -> a = b.
Proof.
  destruct a as [a Ha], b as [b Hb]; simpl; intros ->.
  f_equal. apply proof_irrel.
Qed.

Lemma map_val_inj (lo hi : Z) (l l' : list (Go.bounded lo hi)) :
  map Go.val l = map Go.val l' -> l = l'.
Proof.
  revert l'; induction l as [|a l IH]; intros [|b l']; simpl; try done.
  intros [= Hab Hl]. f_equal; [by apply bounded_eq | by apply IH].
Qed.

Lemma concat_map_nil {A B : Type} (f : A -> list B) (l : list A) :
  (forall a, f a = []) -> concat (map f l) = [].
Proof. intros Hf. induction l as [|a l IH]; simpl; [done|]. by rewrite Hf, IH. Qed.

(** A value of a plain type holds no circuit variable. *)
Lemma plain_no_vars :
  (forall t, plain t = true -> forall v : denote t, vars_of t v = []) /\
  (forall fs, plain_fields fs = true ->
     forall v : denote_fields fs, vars_of_fields fs v = []).
Proof.
  apply gotype_mutind; simpl; try done.
  - intros n e IH He a. apply concat_map_nil. auto.
  - intros e IH He l. apply concat_map_nil. auto.
  - intros n t IHt tag r IHr H [x y]; simpl.
    apply andb_true_iff in H as [Ht Hr].
    by rewrite IHt, IHr.
Qed.

(** ** Field elements and digests *)

Lemma Fp256_limbs_length (x : Fp256.t) : length (Fp256.limbs x) = 4.
Proof.
  unfold Fp256.limbs. rewrite length_map. apply Go.elems_len.
Qed.

Lemma Fp256_limbs_range (x : Fp256.t) :
  Forall (fun l => (0 <= l < 2 ^ 64)%Z) (Fp256.limbs x).
Proof.
  unfold Fp256.limbs. apply Forall_map, Forall_forall.
  intros b _. apply bounded_range.
Qed.

Lemma Fp256_limbs_inj (x y : Fp256.t) : Fp256.limbs x = Fp256.limbs y -> x = y.
Proof.
  destruct x as [a], y as [b]; unfold Fp256.limbs; simpl; intros H.
  f_equal. apply array_eq. by apply map_val_inj in H.
Qed.

(** C1: a field element is exactly four 64-bit limbs.  The struct [Fp256]
    declares the single field [Limbs [4]uint64]; every value of the type
    carries four limbs, at fixed positions, each in [0, 2^64); and the limbs,
    read in order, determine the value. *)
Theorem Fp256_four_limbs (x : Fp256.t) :
  struct_fields Fp256.decl = [ fld "Limbs" (TArray 4 TUint64) ] /\
  (exists l0 l1 l2 l3 : Z, Fp256.limbs x = [l0; l1; l2; l3]) /\
  Forall (fun l => (0 <= l < 2 ^ 64)%Z) (Fp256.limbs x) /\
  (forall y : Fp256.t, Fp256.limbs y = Fp256.limbs x -> y = x).
Proof.
  split; [reflexivity|]. split; [|split].
  - pose proof (Fp256_limbs_length x) as H.
    destruct (Fp256.limbs x) as [|l0 [|l1 [|l2 [|l3 [|l4 r]]]]]; try discriminate H.
    by exists l0, l1, l2, l3.
  - apply Fp256_limbs_range.
  - intros y. apply Fp256_limbs_inj.
Qed.

(** Limb order is part of the value: exchanging two different limbs gives a
    different field element. *)
Example Fp256_limb_order_matters : fp_one_le <> fp_one_be.
Proof. intros H. apply (f_equal Fp256.limbs) in H. discriminate H. Qed.

Lemma KeccakDigest_length (d : KeccakDigest.t) :
  length (Go.elems (KeccakDigest.KeccakDigest d)) = 32.
Proof. apply Go.elems_len. Qed.

Lemma KeccakDigest_bytes (d : KeccakDigest.t) :
  Forall (fun b => (0 <= Go.val b < 256)%Z) (Go.elems (KeccakDigest.KeccakDigest d)).
Proof. apply Forall_forall. intros b _. apply (bounded_range 0 (2 ^ 8)). Qed.

(** C2, as the claim states it, fails: the entries of a [KeccakDigest] are
    not in-circuit byte variables.  Their type is [uint8], which is no circuit
    variable, so the field is not a [[32]uints.U8]; and the all-zero digest
    holds no circuit variable at all. *)
Lemma KeccakDigest_entries_not_in_circuit :
  ~ (exists e : gotype,
       field_type KeccakDigest.decl "KeccakDigest" ≫= entry_type = Some e /\
       circuit_variable e = true) /\
  field_type KeccakDigest.decl "KeccakDigest" <> Some (TArray 32 TU8) /\
  vars_of KeccakDigest.decl (KeccakDigest.repr zero_digest) = [].
Proof.
  split; [|split; [discriminate | reflexivity]].
  intros (e & He & Hc). cbn in He. injection He as <-. discriminate Hc.
Qed.

(** C2, amended: a [KeccakDigest] holds exactly 32 entries, each a native
    byte ([uint8], in [0, 256)), and no circuit variable.  The in-circuit
    carriers of digests are other types: [MerklePaths] keeps sibling hashes
    and authentication paths as slices of [uints.U8], whose length the type
    does not fix, and [Merkle] keeps each hash as one [frontend.Variable]. *)
Theorem KeccakDigest_32_native_bytes (d : KeccakDigest.t) :
  struct_fields KeccakDigest.decl = [ fld "KeccakDigest" (TArray 32 TUint8) ] /\
  length (Go.elems (KeccakDigest.KeccakDigest d)) = 32 /\
  Forall (fun b => (0 <= Go.val b < 256)%Z) (Go.elems (KeccakDigest.KeccakDigest d)) /\
  vars_of KeccakDigest.decl (KeccakDigest.repr d) = [] /\
  field_type MerklePaths.decl "LeafSiblingHashes" = Some (TSlice (TSlice (TSlice TU8))) /\
  field_type MerklePaths.decl "AuthPaths" = Some (TSlice (TSlice (TSlice (TSlice TU8)))) /\
  field_type Merkle.decl "LeafSiblingHashes" = Some (TSlice (TSlice TVariable)) /\
  field_type Merkle.decl "AuthPaths" = Some (TSlice (TSlice (TSlice TVariable))).
Proof.
  split; [reflexivity|].
  split; [apply KeccakDigest_length|].
  split; [apply KeccakDigest_bytes|].
  split; [|by repeat split].
  by apply (proj1 plain_no_vars KeccakDigest.decl).
Qed.

(** ** The WHIR parameters *)

(** X5: the WHIR parameters are plain integers.  Every field of
    [WHIRConfig] is an [int], an [[]int] or a [string]; every field of
    [WHIRParams] but the domain generator is an [int] or an [[]int]; the
    domain generator is the one field of [WHIRParams] that holds a circuit
    variable.  Accordingly a configuration value holds no circuit variable and
    a parameters value holds exactly one, the generator.  Every field of
    [MainRoundData] and [InitialSumcheckData] has a circuit-variable type. *)
Theorem whir_parameters_are_plain_integers :
  Forall (fun f => is_int_type (f_type f) = true \/ f_type f = TString)
         (struct_fields WHIRConfig.decl) /\
  Forall (fun f => is_int_type (f_type f) = true \/
                   f_name f = "StartingDomainBackingDomainGenerator")
         (struct_fields WHIRParams.decl) /\
  circuit_fields WHIRConfig.decl = [] /\
  circuit_fields WHIRParams.decl =
    [ fld "StartingDomainBackingDomainGenerator" TVariable ] /\
  field_type WHIRParams.decl "ParamNRounds" = Some TInt /\
  field_type WHIRParams.decl "FoldingFactorArray" = Some (TSlice TInt) /\
  field_type WHIRParams.decl "RoundParametersNumOfQueries" = Some (TSlice TInt) /\
  field_type WHIRParams.decl "FinalQueries" = Some TInt /\
  field_type WHIRParams.decl "DomainSize" = Some TInt /\
  Forall (fun f => plain (f_type f) = false)
         (struct_fields MainRoundData.decl ++ struct_fields InitialSumcheckData.decl) /\
  (forall c : WHIRConfig.t, vars_of WHIRConfig.decl (WHIRConfig.repr c) = []) /\
  (forall p : WHIRParams.t,
     vars_of WHIRParams.decl (WHIRParams.repr p) =
     [ WHIRParams.StartingDomainBackingDomainGenerator p ]).
Proof.
  split; [repeat constructor; by (left + right)|].
  split; [repeat constructor; by (left + right)|].
  do 7 (split; [reflexivity|]).
  split; [by repeat constructor|].
  split.
  - intros c. by apply (proj1 plain_no_vars WHIRConfig.decl).
  - intros p. cbn.
    rewrite !concat_map_nil by done. reflexivity.
Qed.

(** ** Hints and JSON *)

(** Decoding a JSON object into a struct without exported fields changes
    nothing, whatever the object and however field values are decoded. *)
Section UnexportedStructs.

Variable unmarshal_value : forall t : gotype, json -> denote t -> option (denote t).
Variable fs : fields.
Hypothesis Hfs : forallb (fun f => negb (exported (f_name f))) (list_of_fields fs) = true.

Lemma json_key_unexported (n : string) (t : gotype) (tag : option string) :
  exported n = false -> json_key (Field n t tag) = None.
Proof. unfold json_key; simpl. by intros ->. Qed.

Lemma store_member_unexported (eqk : string -> string -> bool) (k : string)
    (j : json) (v : denote_fields fs) :
  store_member unmarshal_value eqk fs k j v = Some v.
Proof.
  clear -Hfs. induction fs as [|n t tag r IH]; simpl in *; [done|].
  apply andb_true_iff in Hfs as [Hn Hr].
  apply negb_true_iff in Hn.
  rewrite (json_key_unexported n t tag Hn).
  rewrite (IH Hr). by destruct v.
Qed.

Lemma unmarshal_members_unexported (ms : list (string * json))
    (v : denote_fields fs) :
  unmarshal_members unmarshal_value fs ms v = Some v.
Proof.
  induction ms as [|m ms IH]; simpl; [done|].
  unfold unmarshal_member.
  destruct (has_member _ _ _); rewrite store_member_unexported; simpl; apply IH.
Qed.

Lemma unmarshal_struct_unexported (j : json) (v v' : denote_fields fs) :
  unmarshal_struct unmarshal_value fs j v = Some v' -> v' = v.
Proof.
  destruct j; simpl; try discriminate.
  - by intros [= ->].
  - rewrite unmarshal_members_unexported. by intros [= ->].
Qed.

End UnexportedStructs.

(** C9: every field of the hint structs [Hints], [ZKHint], [Hint] and
    [FirstRoundHint] is unexported, and every field of [Config] and
    [ProofObject] (and of [WHIRConfig], nested in [Config]) is exported and
    carries a JSON tag.  Consequently JSON sees
    no field of a hint struct, decoding any JSON value into a hint leaves it
    as it was, and no hint struct occurs in the types of [Config] or
    [ProofObject], so a serialized configuration holds no hint. *)
Theorem hints_hidden_from_json :
  Forall (fun d => all_unexported d = true) hint_decls /\
  all_exported_tagged Config.decl = true /\
  all_exported_tagged ProofObject.decl = true /\
  all_exported_tagged WHIRConfig.decl = true /\
  Forall (fun d => json_fields d = []) hint_decls /\
  Forall (fun d =>
    forall (unmarshal_value : forall t : gotype, json -> denote t -> option (denote t))
           (j : json) (v v' : denote_fields (decl_fields d)),
      unmarshal_struct unmarshal_value (decl_fields d) j v = Some v' -> v' = v)
    hint_decls /\
  struct_names Config.decl = [ "Config"; "WHIRConfig"; "WHIRConfig" ] /\
  struct_names ProofObject.decl = [ "ProofObject"; "Fp256" ] /\
  Forall (fun d => mentions (decl_name d) Config.decl = false /\
                   mentions (decl_name d) ProofObject.decl = false)
         hint_decls.
Proof.
  split; [by repeat constructor|].
  do 3 (split; [reflexivity|]).
  split; [by repeat constructor|].
  split.
  - repeat constructor; intros um j v v'; by apply unmarshal_struct_unexported.
  - split; [reflexivity|]. split; [reflexivity|]. by repeat constructor.
Qed.

(** ** Field elements at the configuration interface *)

(** [ProofObject], which is no part of [Config], is where the limb
    representation does carry a JSON tag. *)
Lemma ProofObject_carries_limbs :
  json_fields ProofObject.decl =
    [ ("statement_values_at_random_point", TSlice Fp256.decl) ] /\
  has_limbs ProofObject.decl = true.
Proof. by split. Qed.

(** C10: field elements cross the configuration interface as strings.  The
    domain generator of [WHIRConfig] is a [string], the witness and blinding
    statement evaluations of [Config] are [[]string], and neither [Fp256]
    nor an inline [[4]uint64] occurs in the type of any JSON field of
    [Config] or [WHIRConfig].  Inside the circuit the generator is a circuit
    variable ([WHIRParams]), so it has to be parsed from its string first. *)
Theorem field_elements_cross_config_as_strings :
  field_type WHIRConfig.decl "DomainGenerator" = Some TString /\
  field_type Config.decl "WitnessStatementEvaluations" = Some (TSlice TString) /\
  field_type Config.decl "BlindingStatementEvaluations" = Some (TSlice TString) /\
  Forall (fun kt => mentions "Fp256" kt.2 = false /\ has_limbs kt.2 = false)
         (json_fields Config.decl ++ json_fields WHIRConfig.decl) /\
  length (json_fields Config.decl) = length (struct_fields Config.decl) /\
  length (json_fields WHIRConfig.decl) = length (struct_fields WHIRConfig.decl) /\
  field_type WHIRParams.decl "StartingDomainBackingDomainGenerator" = Some TVariable.
Proof.
  do 3 (split; [reflexivity|]).
  split; [by repeat constructor|].
  by repeat split.
Qed.

(** ** The shape of authentication paths *)

Section MultiPathFacts.

Context {Digest : Type}.
Implicit Types (p : MultiPath.t Digest) (depth i : nat).

Lemma check_leaf_spec depth p i :
  check_leaf depth p i = true <->
  exists (n : Go.uint64) (suffix : list Digest),
    MultiPath.AuthPathsPrefixLengths p !! i = Some n /\
    MultiPath.AuthPathsSuffixes p !! i = Some suffix /\
    (Go.val n + Z.of_nat (length suffix))%Z = Z.of_nat depth.
Proof.
  unfold check_leaf.
  destruct (MultiPath.AuthPathsPrefixLengths p !! i) as [n|];
    destruct (MultiPath.AuthPathsSuffixes p !! i) as [s|]; split.
  - intros H%Z.eqb_eq. by exists n, s.
  - intros (n' & s' & [= <-] & [= <-] & H). by apply Z.eqb_eq.
  - discriminate.
  - by intros (n' & s' & _ & [=] & _).
  - discriminate.
  - by intros (n' & s' & [=] & _).
  - discriminate.
  - by intros (n' & s' & [=] & _).
Qed.

Lemma check_multipath_spec depth p :
  check_multipath depth p = true <-> multipath_invariant depth p.
Proof.
  unfold check_multipath, multipath_invariant.
  rewrite andb_true_iff, Nat.eqb_eq, forallb_forall.
  split; intros [Hlen Hall]; (split; [exact Hlen|]).
  - intros i Hi. apply check_leaf_spec, Hall, in_seq. lia.
  - intros i Hi%in_seq. apply check_leaf_spec, Hall. lia.
Qed.

Lemma verify_shape_cases depth p (root_matches : bool) :
  (check_multipath depth p = true /\
   verify_shape depth p root_matches = Circuit root_matches) \/
  (check_multipath depth p = false /\
   verify_shape depth p root_matches = Failed ConfigurationError).
Proof. unfold verify_shape. destruct (check_multipath depth p); auto. Qed.

(** C3: the invariant of an authentication path is what the explicit check
    decides.  The check accepts a path exactly when it has as many leaf
    indexes as suffix sequences and, for every leaf, prefix length plus suffix
    length is the depth; Merkle verification goes on to the root constraint
    exactly for such paths, and stops with a configuration error for the
    others. *)
Theorem multipath_shape_checked depth p (root_matches : bool) :
  (check_multipath depth p = true <-> multipath_invariant depth p) /\
  (verify_shape depth p root_matches = Circuit root_matches <->
   multipath_invariant depth p) /\
  (verify_shape depth p root_matches = Failed ConfigurationError <->
   ~ multipath_invariant depth p).
Proof.
  pose proof (check_multipath_spec depth p) as Hspec.
  split; [exact Hspec|].
  destruct (verify_shape_cases depth p root_matches) as [[Hc ->]|[Hc ->]].
  - split; split; try done.
    + intros _. by apply Hspec.
    + intros Hn. destruct Hn. by apply Hspec.
  - assert (~ multipath_invariant depth p) as Hn.
    { rewrite <- Hspec, Hc. discriminate. }
    split; split; try done.
Qed.

(** ** Leaf indexes and the domain size *)

Lemma assemble_round_failed (ds : Go.int) p (rm : bool) :
  assemble_round ds p rm = Failed ConfigurationError <->
  exists i : Go.uint64, i ∈ MultiPath.LeafIndexes p /\ (Go.val ds <= Go.val i)%Z.
Proof.
  unfold assemble_round.
  destruct (forallb _ _) eqn:Hall.
  - split; [discriminate|].
    intros (i & Hi & Hge).
    rewrite forallb_forall in Hall.
    apply list_elem_of_In, Hall in Hi.
    unfold leaf_in_domain in Hi. apply Z.ltb_lt in Hi. lia.
  - split; [intros _|done].
    apply not_true_iff_false in Hall.
    rewrite forallb_forall in Hall.
    induction (MultiPath.LeafIndexes p) as [|i l IH].
    + destruct Hall. intros x [].
    + destruct (leaf_in_domain ds i) eqn:Hi.
      * destruct IH as (x & Hx & Hge).
        { intros Hl. apply Hall. intros x [<-|Hx]; auto. }
        exists x. split; [by right | done].
      * exists i. split; [by left|].
        unfold leaf_in_domain in Hi. apply Z.ltb_ge in Hi. lia.
Qed.

Lemma assemble_round_outcome (ds : Go.int) p (rm : bool) :
  assemble_round ds p rm = Failed ConfigurationError \/
  assemble_round ds p rm = Circuit rm.
Proof. unfold assemble_round. destruct (forallb _ _); auto. Qed.

Lemma assemble_batch_failed (rounds : list (Go.int * MultiPath.t Digest * bool)) :
  assemble_batch rounds = Failed ConfigurationError <->
  exists (ds : Go.int) p (rm : bool) (i : Go.uint64),
    (ds, p, rm) ∈ rounds /\ i ∈ MultiPath.LeafIndexes p /\
    (Go.val ds <= Go.val i)%Z.
Proof.
  induction rounds as [|[[ds p] rm] rest IH]; simpl.
  - split; [discriminate|]. intros (? & ? & ? & ? & H & _). by apply elem_of_nil in H.
  - destruct (assemble_round_outcome ds p rm) as [Hr|Hr].
    + rewrite Hr. split; [intros _|done].
      apply assemble_round_failed in Hr as (i & Hi & Hge).
      exists ds, p, rm, i. split; [by left | done].
    + assert (~ exists i : Go.uint64,
                 i ∈ MultiPath.LeafIndexes p /\ (Go.val ds <= Go.val i)%Z) as Hok.
      { rewrite <- assemble_round_failed, Hr. discriminate. }
      rewrite Hr.
      destruct (assemble_batch rest) as [e|ok'] eqn:Hrest.
      * split.
        -- intros He. apply IH in He as (ds' & p' & rm' & i & Hin & Hi & Hge).
           exists ds', p', rm', i. split; [by right | done].
        -- intros (ds' & p' & rm' & i & Hin & Hi & Hge).
           apply elem_of_cons in Hin as [[= -> -> ->]|Hin].
           ++ destruct Hok. by exists i.
           ++ apply IH. by exists ds', p', rm', i.
      * split; [discriminate|].
        intros (ds' & p' & rm' & i & Hin & Hi & Hge).
        apply elem_of_cons in Hin as [[= -> -> ->]|Hin].
        -- destruct Hok. by exists i.
        -- assert (@Circuit ok' = Failed ConfigurationError) as [=].
           apply IH. by exists ds', p', rm', i.
Qed.

(** C8: a leaf index at or beyond its round's domain size is a construction
    time failure.  Assembling a Merkle batch ends in a configuration error
    exactly when some round holds a leaf index not below that round's domain
    size, and then no circuit, satisfiable or not, is produced. *)
Theorem leaf_index_beyond_domain_fails
    (rounds : list (Go.int * MultiPath.t Digest * bool)) :
  (assemble_batch rounds = Failed ConfigurationError <->
   exists (ds : Go.int) p (rm : bool) (i : Go.uint64),
     (ds, p, rm) ∈ rounds /\ i ∈ MultiPath.LeafIndexes p /\
     (Go.val ds <= Go.val i)%Z) /\
  ((exists (ds : Go.int) p (rm : bool) (i : Go.uint64),
      (ds, p, rm) ∈ rounds /\ i ∈ MultiPath.LeafIndexes p /\
      (Go.val ds <= Go.val i)%Z) ->
   forall satisfiable : bool, assemble_batch rounds <> Circuit satisfiable).
Proof.
  split; [apply assemble_batch_failed|].
  intros H%assemble_batch_failed sat. rewrite H. discriminate.
Qed.

End MultiPathFacts.

(** The types alone do not tie these lengths together: there are values of
    [MultiPath], [WHIRConfig] and [Config] that the checks reject. *)
Lemma shapes_not_enforced_by_types :
  (forall depth : nat, check_multipath depth path_without_suffix = false) /\
  validate_config config_without_arrays = inl ConfigurationError /\
  (forall pattern_bytes : string -> nat,
     initialize_config pattern_bytes config_short_transcript =
     inl MalformedTranscript).
Proof. by repeat split. Qed.

(** ** Per-round arrays *)

(** C4, as the claim states it, fails: not every value has per-round
    arrays as long as its round count, or one longer.  A configuration and
    parameters with round count 2 and empty arrays are values of their types;
    their folding-factor arrays have neither 2 nor 3 entries. *)
Lemma round_arrays_length_not_invariant :
  ~ round_array_inv (WHIRConfig.NRounds config_without_arrays)
      (WHIRConfig.FoldingFactor config_without_arrays) /\
  ~ round_array_inv (WHIRParams.ParamNRounds params_without_arrays)
      (WHIRParams.FoldingFactorArray params_without_arrays) /\
  ~ (forall c : WHIRConfig.t,
       Forall (round_array_inv (WHIRConfig.NRounds c)) (config_round_arrays c)) /\
  ~ (forall p : WHIRParams.t,
       Forall (round_array_inv (WHIRParams.ParamNRounds p)) (params_round_arrays p)).
Proof.
  assert (~ round_array_inv int2 []) as Hno.
  { unfold round_array_inv. simpl. lia. }
  split; [exact Hno|]. split; [exact Hno|]. split.
  - intros H. specialize (H config_without_arrays).
    apply Forall_cons in H as [H _]. by apply Hno.
  - intros H. specialize (H params_without_arrays).
    apply Forall_cons in H as [H _]. by apply Hno.
Qed.

(** C4, amended: the types do not tie the per-round arrays to the round
    count.  In [WHIRConfig] and [WHIRParams] the round count is an [int] and
    each per-round array (folding factors, OOD sample counts, query counts,
    proof-of-work bits) is a slice, whose length the type does not fix; the
    fields are independent, so for every round count and every choice of the
    four arrays there is a value holding them.  A value satisfies the length
    invariant exactly when each of these four fields has as many entries as
    its round count, or one more. *)
Theorem round_arrays_not_tied_to_round_count (n : Go.int)
    (ff ood nq pb : list Go.int) :
  field_type WHIRConfig.decl "NRounds" = Some TInt /\
  field_type WHIRParams.decl "ParamNRounds" = Some TInt /\
  Forall (fun name => field_type WHIRConfig.decl name = Some (TSlice TInt))
         [ "FoldingFactor"; "OODSamples"; "NumQueries"; "PowBits" ] /\
  Forall (fun name => field_type WHIRParams.decl name = Some (TSlice TInt))
         [ "FoldingFactorArray"; "RoundParametersOODSamples";
           "RoundParametersNumOfQueries"; "PowBits" ] /\
  (exists c : WHIRConfig.t,
     WHIRConfig.NRounds c = n /\ WHIRConfig.FoldingFactor c = ff /\
     WHIRConfig.OODSamples c = ood /\ WHIRConfig.NumQueries c = nq /\
     WHIRConfig.PowBits c = pb) /\
  (exists p : WHIRParams.t,
     WHIRParams.ParamNRounds p = n /\ WHIRParams.FoldingFactorArray p = ff /\
     WHIRParams.RoundParametersOODSamples p = ood /\
     WHIRParams.RoundParametersNumOfQueries p = nq /\
     WHIRParams.PowBits p = pb) /\
  (forall c : WHIRConfig.t,
     Forall (round_array_inv (WHIRConfig.NRounds c)) (config_round_arrays c) <->
     round_array_inv (WHIRConfig.NRounds c) (WHIRConfig.FoldingFactor c) /\
     round_array_inv (WHIRConfig.NRounds c) (WHIRConfig.OODSamples c) /\
     round_array_inv (WHIRConfig.NRounds c) (WHIRConfig.NumQueries c) /\
     round_array_inv (WHIRConfig.NRounds c) (WHIRConfig.PowBits c)) /\
  (forall p : WHIRParams.t,
     Forall (round_array_inv (WHIRParams.ParamNRounds p)) (params_round_arrays p) <->
     round_array_inv (WHIRParams.ParamNRounds p) (WHIRParams.FoldingFactorArray p) /\
     round_array_inv (WHIRParams.ParamNRounds p) (WHIRParams.RoundParametersOODSamples p) /\
     round_array_inv (WHIRParams.ParamNRounds p) (WHIRParams.RoundParametersNumOfQueries p) /\
     round_array_inv (WHIRParams.ParamNRounds p) (WHIRParams.PowBits p)).
Proof.
  do 2 (split; [reflexivity|]).
  do 2 (split; [by repeat constructor|]).
  split.
  { by exists (WHIRConfig.Build n int0 int0 ff ood nq pb int0 int0 int0
                 EmptyString int0). }
  split.
  { by exists (WHIRParams.Build n ff ood nq pb int0 int0 int0
                 (frontend.Constant 0) int0 int0 int0 int0 int0). }
  split.
  - intros c. unfold config_round_arrays.
    rewrite !Forall_cons, Forall_nil. tauto.
  - intros p. unfold params_round_arrays.
    rewrite !Forall_cons, Forall_nil. tauto.
Qed.

(** ** Transcript replay *)

(** C6: [initialize] fails with [MalformedTranscript] exactly when the
    declared length differs from the number of transcript bytes or the
    pattern reads more bytes than were supplied; otherwise it succeeds with
    the cursor at the start.  A configuration whose transcript initializes
    has its declared length equal to its byte length. *)
Theorem initialize_malformed_exactly (pattern_bytes : string -> nat)
    (pattern : string) (bytes : list Go.byte) (declaredLength : Go.int) :
  (initialize pattern_bytes pattern bytes declaredLength = inl MalformedTranscript <->
   Go.val declaredLength <> Z.of_nat (length bytes) \/
   length bytes < pattern_bytes pattern) /\
  (initialize pattern_bytes pattern bytes declaredLength =
     inr (Replay pattern bytes 0) <->
   Go.val declaredLength = Z.of_nat (length bytes) /\
   pattern_bytes pattern <= length bytes) /\
  (forall (c : Config.t) (st : replay),
     initialize_config pattern_bytes c = inr st ->
     Go.val (Config.TranscriptLen c) = Z.of_nat (length (Config.Transcript c))).
Proof.
  assert (forall (pat : string) (bs : list Go.byte) (n : Go.int),
    (Go.val n <> Z.of_nat (length bs) \/ length bs < pattern_bytes pat) /\
      initialize pattern_bytes pat bs n = inl MalformedTranscript \/
    (Go.val n = Z.of_nat (length bs) /\ pattern_bytes pat <= length bs) /\
      initialize pattern_bytes pat bs n = inr (Replay pat bs 0)) as Hcases.
  { intros pat bs n. unfold initialize.
    destruct (Z.eqb_spec (Go.val n) (Z.of_nat (length bs))) as [Heq|Hne]; simpl.
    - destruct (Nat.ltb_spec (length bs) (pattern_bytes pat)).
      + left. split; [by right | done].
      + right. split; [by split | done].
    - left. split; [by left | done]. }
  split; [|split].
  - destruct (Hcases pattern bytes declaredLength) as [[H ->]|[[H1 H2] ->]].
    + done.
    + split; [discriminate|]. intros [?|?]; [done | lia].
  - destruct (Hcases pattern bytes declaredLength) as [[H ->]|[[H1 H2] ->]].
    + split; [discriminate|]. intros [? ?]. destruct H; [done | lia].
    + done.
  - intros c st. unfold initialize_config.
    destruct (Hcases (Config.IOPattern c) (Config.Transcript c)
                (Config.TranscriptLen c)) as [[_ ->]|[[H1 _] _]];
      [discriminate | done].
Qed.

(** ** JSON keys select their fields *)

Section KeysSelectFields.

Variable unmarshal_value : forall t : gotype, json -> denote t -> option (denote t).

Lemma equal_fold_spec (a b : string) : equal_fold a b = true <-> lower a = lower b.
Proof. unfold equal_fold. apply String.eqb_eq. Qed.

Lemma eqb_equal_fold (a b : string) : String.eqb a b = true -> equal_fold a b = true.
Proof. intros ->%String.eqb_eq. by apply equal_fold_spec. Qed.

(** A key that no field answers to, up to case, is skipped. *)
Lemma store_member_free (eqk : string -> string -> bool) (fs : fields)
    (k : string) (j : json) (v : denote_fields fs) :
  (forall a b, eqk a b = true -> equal_fold a b = true) ->
  key_free k (list_of_fields fs) = true ->
  store_member unmarshal_value eqk fs k j v = Some v.
Proof.
  intros Heqk. induction fs as [|n t tag r IH]; simpl; [done|].
  intros [Hh Hr]%andb_true_iff.
  destruct (json_key (Field n t tag)) as [key|].
  - destruct (eqk key k) eqn:He.
    + apply Heqk in He. rewrite He in Hh. discriminate Hh.
    + rewrite (IH _ Hr). by destruct v.
  - rewrite (IH _ Hr). by destruct v.
Qed.

Lemma has_member_free (eqk : string -> string -> bool) (fs : fields) (k : string) :
  (forall a b, eqk a b = true -> equal_fold a b = true) ->
  key_free k (list_of_fields fs) = true ->
  has_member eqk fs k = false.
Proof.
  intros Heqk. unfold has_member, key_free.
  induction (list_of_fields fs) as [|g l IH]; simpl; [done|].
  intros [Hg Hl]%andb_true_iff. rewrite (IH Hl), orb_false_r.
  destruct (json_key g) as [key|]; [|done].
  destruct (eqk key k) eqn:He; [|done].
  apply Heqk in He. rewrite He in Hg. discriminate Hg.
Qed.

Lemma unmarshal_member_free (fs : fields) (k : string) (j : json)
    (v : denote_fields fs) :
  key_free k (list_of_fields fs) = true ->
  unmarshal_member unmarshal_value fs (k, j) v = Some v.
Proof.
  intros Hfree. unfold unmarshal_member; simpl.
  rewrite (has_member_free String.eqb) by auto using eqb_equal_fold.
  by apply store_member_free.
Qed.

(** Fold-equality of keys is transitive through a common key. *)
Lemma key_free_fold (k k' : string) (l : list field) :
  equal_fold k k' = true -> key_free k l = true -> key_free k' l = true.
Proof.
  intros Hk%equal_fold_spec. unfold key_free.
  rewrite !forallb_forall. intros H g Hg. specialize (H g Hg).
  destruct (json_key g) as [kg|]; [|done].
  apply negb_true_iff in H. apply negb_true_iff.
  apply not_true_iff_false. intros He%equal_fold_spec.
  apply not_true_iff_false in H. apply H, equal_fold_spec. congruence.
Qed.

Lemma key_free_lookup (k : string) (l : list field) (i : nat) (g : field) (kg : string) :
  key_free k l = true -> l !! i = Some g -> json_key g = Some kg ->
  equal_fold kg k = false.
Proof.
  unfold key_free. rewrite forallb_forall. intros H Hi Hk.
  apply list_elem_of_lookup_2, list_elem_of_In, H in Hi.
  rewrite Hk in Hi. by apply negb_true_iff.
Qed.

(** With distinct keys, the member [k] is decoded into the one field whose
    key is [k] up to case. *)
Lemma unmarshal_member_at (fs : fields) (i : nat) (g : field) (key k : string)
    (j : json) (v : denote_fields fs) :
  keys_distinct (list_of_fields fs) = true ->
  list_of_fields fs !! i = Some g ->
  json_key g = Some key ->
  equal_fold key k = true ->
  unmarshal_member unmarshal_value fs (k, j) v =
  update_at (fun t => unmarshal_value t j) fs i v.
Proof.
  revert i v. induction fs as [|n t tag r IH]; intros i v Hd Hi Hkey Hfold.
  - discriminate Hi.
  - simpl in Hd. apply andb_true_iff in Hd as [Hh Hr].
    destruct i as [|i]; simpl in Hi.
    + injection Hi as <-. rewrite Hkey in Hh.
      pose proof (key_free_fold _ _ _ Hfold Hh) as Hfree.
      unfold unmarshal_member, has_member; simpl.
      rewrite Hkey.
      fold (has_member String.eqb r k).
      rewrite (has_member_free String.eqb r k) by auto using eqb_equal_fold.
      rewrite orb_false_r.
      destruct (String.eqb key k); [done|]. by rewrite Hfold.
    + specialize (IH i (snd v) Hr Hi Hkey Hfold).
      assert (forall eqk : string -> string -> bool,
                (forall a b, eqk a b = true -> equal_fold a b = true) ->
                match json_key (Field n t tag) with
                | Some kh => eqk kh k
                | None => false
                end = false) as Hhead.
      { intros eqk Heqk. destruct (json_key (Field n t tag)) as [kh|]; [|done].
        destruct (eqk kh k) eqn:He; [|done].
        apply Heqk, equal_fold_spec in He.
        pose proof (key_free_lookup _ _ _ _ _ Hh Hi Hkey) as Hne.
        apply not_true_iff_false in Hne. destruct Hne.
        apply equal_fold_spec. apply equal_fold_spec in Hfold. congruence. }
      pose proof (Hhead String.eqb eqb_equal_fold) as He.
      pose proof (Hhead equal_fold (fun a b H => H)) as Hf.
      unfold unmarshal_member in *; simpl in *.
      unfold has_member in *; simpl.
      rewrite He; simpl.
      destruct (json_key (Field n t tag)) as [kh|]; rewrite ?He, ?Hf;
        destruct (existsb _ (list_of_fields r)); by rewrite IH.
Qed.

End KeysSelectFields.

(** X1: in [Config], [WHIRConfig], [ProofObject], [Fp256], [KeccakDigest]
    and [MultiPath] every field has a JSON key, and the keys of one struct
    are pairwise different even up to letter case.  So a JSON member whose
    key equals a field's key up to case is decoded into that field and no
    other, and a member whose key matches no field is skipped. *)
Theorem json_keys_select_fields :
  Forall (fun d =>
    length (json_fields d) = length (struct_fields d) /\
    keys_distinct (struct_fields d) = true /\
    (forall (unmarshal_value : forall t : gotype, json -> denote t -> option (denote t))
            (i : nat) (g : field) (key k : string) (j : json)
            (v : denote_fields (decl_fields d)),
       struct_fields d !! i = Some g ->
       json_key g = Some key ->
       equal_fold key k = true ->
       unmarshal_member unmarshal_value (decl_fields d) (k, j) v =
       update_at (fun t => unmarshal_value t j) (decl_fields d) i v) /\
    (forall (unmarshal_value : forall t : gotype, json -> denote t -> option (denote t))
            (k : string) (j : json) (v : denote_fields (decl_fields d)),
       key_free k (struct_fields d) = true ->
       unmarshal_member unmarshal_value (decl_fields d) (k, j) v = Some v))
    json_decls.
Proof.
  repeat constructor; try reflexivity.
  all: try (intros um i g key k j v Hi Hkey Hfold;
            by apply (unmarshal_member_at um _ i g key)).
  all: intros um k j v Hfree; by apply unmarshal_member_free.
Qed.

(** A tag replaces the field's name as its key: [NRounds] is read from
    ["n_rounds"], in any case, and not from ["NRounds"]. *)
Example WHIRConfig_NRounds_key (c : WHIRConfig.t) :
  let fail : forall t : gotype, json -> denote t -> option (denote t) :=
    fun _ _ _ => None in
  unmarshal_member fail (decl_fields WHIRConfig.decl) ("N_Rounds", JNull)
    (WHIRConfig.repr c) = None /\
  unmarshal_member fail (decl_fields WHIRConfig.decl) ("NRounds", JNull)
    (WHIRConfig.repr c) = Some (WHIRConfig.repr c).
Proof. by split. Qed.

(** Keys are matched up to Unicode case folding: the long s and the Kelvin
    sign fold to [s] and [k], so these keys name [NRounds] and the digest's
    field, and a key that differs otherwise names no field. *)
Example folded_keys_match :
  equal_fold "n_rounds" key_n_rounds_long_s = true /\
  key_free key_n_rounds_long_s (struct_fields WHIRConfig.decl) = false /\
  equal_fold "KeccakDigest" key_kelvin_eccakDigest = true /\
  key_free key_kelvin_eccakDigest (struct_fields KeccakDigest.decl) = false /\
  key_free "n_round" (struct_fields WHIRConfig.decl) = true.
Proof. by repeat split. Qed.

(** ** Native data and in-circuit data *)

(** X2: the hints, the configuration, the proof object and the claimed
    evaluations are native data: no value of these types holds a circuit
    variable.  A [MultiPath] holds circuit variables only inside its digests:
    over a plain digest type it holds none. *)
Theorem native_data_hold_no_circuit_variable :
  (forall h : Hints.t, vars_of Hints.decl (Hints.repr h) = []) /\
  (forall c : Config.t, vars_of Config.decl (Config.repr c) = []) /\
  (forall p : ProofObject.t, vars_of ProofObject.decl (ProofObject.repr p) = []) /\
  (forall e : ClaimedEvaluations.t,
     vars_of ClaimedEvaluations.decl (ClaimedEvaluations.repr e) = []) /\
  (forall D : gotype, plain (MultiPath.decl D) = plain D) /\
  (forall (Digest : Type) (D : gotype) (rd : Digest -> denote D)
          (p : MultiPath.t Digest),
     plain D = true ->
     vars_of (MultiPath.decl D) (MultiPath.repr rd p) = []).
Proof.
  pose proof (proj1 plain_no_vars) as Hplain.
  assert (forall D : gotype, plain (MultiPath.decl D) = plain D) as HD.
  { intros D. cbn. destruct (plain D); reflexivity. }
  repeat split; try (intros x; by apply Hplain).
  - exact HD.
  - intros Digest D rd p HDp. apply Hplain. by rewrite HD.
Qed.

Lemma sum_list_with_const {A : Type} (k : nat) (l : list A) :
  sum_list_with (fun _ => k) l = k * length l.
Proof. induction l as [|a l IH]; simpl; [lia|]. rewrite IH. lia. Qed.

Lemma sum_list_with_mul {A : Type} (k : nat) (f : A -> nat) (l : list A) :
  sum_list_with (fun a => k * f a) l = k * sum_list_with f l.
Proof. induction l as [|a l IH]; simpl; [lia|]. rewrite IH. lia. Qed.

(** The variables of a slice are those of its entries. *)
Lemma vars_of_slice_length (e : gotype) (n : denote e -> nat) (l : list (denote e)) :
  (forall x, length (vars_of e x) = n x) ->
  length (vars_of (TSlice e) l) = sum_list_with n l.
Proof.
  intros H. simpl. induction l as [|x l IH]; simpl; [done|].
  by rewrite length_app, H, IH.
Qed.

Lemma vars_of_U64_length (a : uints.U64) : length (vars_of TU64 a) = 8.
Proof. simpl. rewrite length_map. apply Go.elems_len. Qed.

Lemma vars_of_slice1 (e : gotype) (k : nat) (l : list (denote e)) :
  (forall x, length (vars_of e x) = k) ->
  length (vars_of (TSlice e) l) = k * length l.
Proof.
  intros H. rewrite (vars_of_slice_length e (fun _ => k)) by done.
  apply sum_list_with_const.
Qed.

Lemma vars_of_slice2 (e : gotype) (k : nat) (l : list (list (denote e))) :
  (forall x, length (vars_of e x) = k) ->
  length (vars_of (TSlice (TSlice e)) l) = k * entries2 l.
Proof.
  intros H.
  rewrite (vars_of_slice_length (TSlice e) (fun r => k * length r))
    by (intros r; by apply vars_of_slice1).
  apply sum_list_with_mul.
Qed.

Lemma vars_of_slice3 (e : gotype) (k : nat) (l : list (list (list (denote e)))) :
  (forall x, length (vars_of e x) = k) ->
  length (vars_of (TSlice (TSlice (TSlice e))) l) = k * entries3 l.
Proof.
  intros H.
  rewrite (vars_of_slice_length (TSlice (TSlice e)) (fun r => k * entries2 r))
    by (intros r; by apply vars_of_slice2).
  apply sum_list_with_mul.
Qed.

Lemma vars_of_slice4 (e : gotype) (k : nat)
    (l : list (list (list (list (denote e))))) :
  (forall x, length (vars_of e x) = k) ->
  length (vars_of (TSlice (TSlice (TSlice (TSlice e)))) l) = k * entries4 l.
Proof.
  intros H.
  rewrite (vars_of_slice_length (TSlice (TSlice (TSlice e)))
             (fun r => k * entries3 r))
    by (intros r; by apply vars_of_slice3).
  apply sum_list_with_mul.
Qed.

(** X3: the size of the in-circuit Merkle data.  A [Merkle] value holds one
    circuit variable per leaf entry, per sibling hash and per path node, and
    eight per leaf index; a [MerklePaths] value holds one per leaf entry and
    per byte of a sibling hash or path node, and eight per leaf index. *)
Theorem merkle_circuit_variable_count (m : Merkle.t) (mp : MerklePaths.t) :
  length (vars_of Merkle.decl (Merkle.repr m)) =
    entries3 (Merkle.Leaves m) + 8 * entries2 (Merkle.LeafIndexes m)
    + entries2 (Merkle.LeafSiblingHashes m) + entries3 (Merkle.AuthPaths m) /\
  length (vars_of MerklePaths.decl (MerklePaths.repr mp)) =
    entries3 (MerklePaths.Leaves mp) + 8 * entries2 (MerklePaths.LeafIndexes mp)
    + entries3 (MerklePaths.LeafSiblingHashes mp)
    + entries4 (MerklePaths.AuthPaths mp).
Proof.
  assert (forall v : denote TVariable, length (vars_of TVariable v) = 1) as HV by done.
  assert (forall u : denote TU8, length (vars_of TU8 u) = 1) as HU by done.
  pose proof vars_of_U64_length as H64.
  split.
  - change (vars_of Merkle.decl (Merkle.repr m)) with
      (vars_of (TSlice (TSlice (TSlice TVariable))) (Merkle.Leaves m)
       ++ vars_of (TSlice (TSlice TU64)) (Merkle.LeafIndexes m)
       ++ vars_of (TSlice (TSlice TVariable)) (Merkle.LeafSiblingHashes m)
       ++ vars_of (TSlice (TSlice (TSlice TVariable))) (Merkle.AuthPaths m)
       ++ []).
    rewrite !length_app.
    rewrite !(vars_of_slice3 TVariable 1), (vars_of_slice2 TU64 8),
      (vars_of_slice2 TVariable 1) by done.
    simpl length. cbn [denote]. lia.
  - change (vars_of MerklePaths.decl (MerklePaths.repr mp)) with
      (vars_of (TSlice (TSlice (TSlice TVariable))) (MerklePaths.Leaves mp)
       ++ vars_of (TSlice (TSlice TU64)) (MerklePaths.LeafIndexes mp)
       ++ vars_of (TSlice (TSlice (TSlice TU8))) (MerklePaths.LeafSiblingHashes mp)
       ++ vars_of (TSlice (TSlice (TSlice (TSlice TU8)))) (MerklePaths.AuthPaths mp)
       ++ []).
    rewrite !length_app.
    rewrite (vars_of_slice3 TVariable 1), (vars_of_slice2 TU64 8),
      (vars_of_slice3 TU8 1), (vars_of_slice4 TU8 1) by done.
    simpl length. cbn [denote]. lia.
Qed.

(** ** The order of JSON members *)

Section MemberOrder.

Variable unmarshal_value : forall t : gotype, json -> denote t -> option (denote t).

(** Updates of two different fields commute. *)
Lemma update_at_comm (f g : forall t : gotype, denote t -> option (denote t))
    (fs : fields) (i i' : nat) (v : denote_fields fs) :
  i <> i' ->
  update_at f fs i v ≫= update_at g fs i' =
  update_at g fs i' v ≫= update_at f fs i.
Proof.
  revert i i' v. induction fs as [|n t tag r IH]; intros i i' v Hne; [done|].
  destruct v as [x y].
  destruct i as [|i], i' as [|i']; simpl; [done| | |].
  - destruct (f t x) as [x'|] eqn:Hf;
      destruct (update_at g r i' y) as [y'|] eqn:Hg;
      simpl; rewrite ?Hf, ?Hg; done.
  - destruct (g t x) as [x'|] eqn:Hg;
      destruct (update_at f r i y) as [y'|] eqn:Hf;
      simpl; rewrite ?Hf, ?Hg; done.
  - assert (i <> i') as Hne' by lia.
    specialize (IH i i' y Hne').
    destruct (update_at f r i y) as [y1|] eqn:H1;
      destruct (update_at g r i' y) as [y2|] eqn:H2;
      simpl in *; rewrite ?H1, ?H2, ?IH; simpl; try done.
    by rewrite <- IH.
Qed.

Lemma key_free_cons (k : string) (g : field) (l : list field) :
  key_free k (g :: l) =
  match json_key g with
  | Some k' => negb (equal_fold k' k)
  | None => true
  end && key_free k l.
Proof. reflexivity. Qed.

(** A key is answered by some field, up to case, or by none. *)
Lemma key_free_or_field (k : string) (l : list field) :
  key_free k l = true \/
  exists (i : nat) (g : field) (key : string),
    l !! i = Some g /\ json_key g = Some key /\ equal_fold key k = true.
Proof.
  induction l as [|g l IH]; [by left|].
  destruct (json_key g) as [key|] eqn:Hkey.
  - destruct (equal_fold key k) eqn:He.
    + right. by exists 0, g, key.
    + destruct IH as [Hfree|(i & g' & key' & Hi & Hk & Hf)].
      * left. by rewrite key_free_cons, Hkey, He, Hfree.
      * right. by exists (S i), g', key'.
  - destruct IH as [Hfree|(i & g' & key' & Hi & Hk & Hf)].
    + left. by rewrite key_free_cons, Hkey, Hfree.
    + right. by exists (S i), g', key'.
Qed.

(** Two members with different keys can be decoded in either order. *)
Lemma unmarshal_member_comm (fs : fields) (m1 m2 : string * json)
    (v : denote_fields fs) :
  keys_distinct (list_of_fields fs) = true ->
  lower m1.1 <> lower m2.1 ->
  unmarshal_member unmarshal_value fs m1 v ≫= unmarshal_member unmarshal_value fs m2 =
  unmarshal_member unmarshal_value fs m2 v ≫= unmarshal_member unmarshal_value fs m1.
Proof.
  destruct m1 as [k1 j1], m2 as [k2 j2]; simpl. intros Hd Hne.
  destruct (key_free_or_field k1 (list_of_fields fs))
    as [Hf1|(i1 & g1 & key1 & Hi1 & Hk1 & He1)].
  { rewrite (unmarshal_member_free _ fs k1) by done. simpl.
    destruct (unmarshal_member _ fs (k2, j2) v) as [v'|]; simpl; [|done].
    by rewrite unmarshal_member_free. }
  destruct (key_free_or_field k2 (list_of_fields fs))
    as [Hf2|(i2 & g2 & key2 & Hi2 & Hk2 & He2)].
  { rewrite (unmarshal_member_free _ fs k2) by done. simpl.
    destruct (unmarshal_member _ fs (k1, j1) v) as [v'|]; simpl; [|done].
    by rewrite unmarshal_member_free. }
  assert (i1 <> i2) as Hi.
  { intros ->. rewrite Hi1 in Hi2. injection Hi2 as <-.
    rewrite Hk1 in Hk2. injection Hk2 as <-.
    apply equal_fold_spec in He1, He2. congruence. }
  transitivity (update_at (fun t => unmarshal_value t j1) fs i1 v
                ≫= update_at (fun t => unmarshal_value t j2) fs i2).
  { apply option_bind_ext; [intros w|];
      by eapply unmarshal_member_at. }
  rewrite update_at_comm by done. symmetry.
  apply option_bind_ext; [intros w|]; by eapply unmarshal_member_at.
Qed.

(** Members with pairwise different keys can be decoded in any order. *)
Lemma unmarshal_members_perm (fs : fields) (ms ms' : list (string * json))
    (v : denote_fields fs) :
  keys_distinct (list_of_fields fs) = true ->
  ms ≡ₚ ms' ->
  NoDup (map (fun m => lower m.1) ms) ->
  unmarshal_members unmarshal_value fs ms v =
  unmarshal_members unmarshal_value fs ms' v.
Proof.
  intros Hd Hperm. revert v.
  induction Hperm as [|m l l' Hp IH|m1 m2 l|l1 l2 l3 Hp1 IH1 Hp2 IH2];
    intros v Hnd.
  - done.
  - simpl in *. apply NoDup_cons in Hnd as [_ Hnd].
    destruct (unmarshal_member _ fs m v) as [v'|]; simpl; [by apply IH | done].
  - simpl in Hnd.
    apply NoDup_cons in Hnd as [Hne _].
    assert (lower m1.1 <> lower m2.1) as Hne'.
    { intros He. apply Hne. rewrite He. by left. }
    pose proof (unmarshal_member_comm fs m1 m2 v Hd Hne') as Hc.
    simpl.
    destruct (unmarshal_member _ fs m2 v) as [v2|] eqn:H2,
             (unmarshal_member _ fs m1 v) as [v1|] eqn:H1; simpl in *.
    + by rewrite <- Hc.
    + by rewrite <- Hc.
    + by rewrite Hc.
    + done.
  - rewrite IH1 by done. apply IH2.
    pose proof (Permutation_map (fun m : string * json => lower m.1) Hp1) as Hm.
    by rewrite <- Hm.
Qed.

End MemberOrder.

(** X4: the order of the members of a JSON object does not matter.  For
    [Config], [WHIRConfig], [ProofObject], [Fp256], [KeccakDigest] and
    [MultiPath], take an object whose keys are pairwise different up to case
    and list its members in another order: decoding succeeds with a value for
    one order exactly when it succeeds with that value for the other, and
    reports an error for one exactly when it does for the other. *)
Theorem json_member_order_irrelevant :
  Forall (fun d =>
    forall (unmarshal_value : forall t : gotype, json -> denote t -> option (denote t))
           (ms ms' : list (string * json)) (v : denote_fields (decl_fields d)),
      ms ≡ₚ ms' ->
      NoDup (map (fun m => lower m.1) ms) ->
      (forall v' : denote_fields (decl_fields d),
         unmarshal_struct unmarshal_value (decl_fields d) (JObject ms) v = Some v' <->
         unmarshal_struct unmarshal_value (decl_fields d) (JObject ms') v = Some v') /\
      (unmarshal_struct unmarshal_value (decl_fields d) (JObject ms) v = None <->
       unmarshal_struct unmarshal_value (decl_fields d) (JObject ms') v = None))
    json_decls.
Proof.
  assert (forall d : gotype,
    keys_distinct (struct_fields d) = true ->
    forall (um : forall t : gotype, json -> denote t -> option (denote t))
           (ms ms' : list (string * json)) (v : denote_fields (decl_fields d)),
      ms ≡ₚ ms' ->
      NoDup (map (fun m => lower m.1) ms) ->
      unmarshal_struct um (decl_fields d) (JObject ms) v =
      unmarshal_struct um (decl_fields d) (JObject ms') v) as Hgen.
  { intros d Hd um ms ms' v Hp Hnd. simpl.
    apply unmarshal_members_perm; [|done..].
    by destruct d. }
  unfold json_decls.
  repeat (apply List.Forall_cons;
          [intros um ms ms' v Hp Hnd;
           match goal with
           | |- context [unmarshal_struct _ (decl_fields ?d)] =>
               by rewrite (Hgen d eq_refl um ms ms' v Hp Hnd)
           end|]).
  apply List.Forall_nil.
Qed.
